(** * yuntun-plugin-zhuye: the server-side rendering handler [handlSSR]

    A shallow embedding of the hapi plugin's request handler: the template
    substitutions of [injectHTML], the asset selection of [extractAssets] and
    [extraChunks], the cookie-driven store initialisation and the three
    outcomes of the handler (document, redirect, not found). *)

From Stdlib Require Import String Ascii NArith List Lia.
From stdpp Require Import gmap list.
Import ListNotations.

Local Open Scope N_scope.
Local Open Scope nat_scope.
Local Open Scope list_scope.

(** ** JavaScript strings

    A JavaScript string is a sequence of UTF-16 code units.  Every literal of
    the handler is ASCII, so [js] reads a literal off a Rocq string. *)

Module JS.

Abbreviation char := N (only parsing).
Abbreviation str := (list N) (only parsing).

Definition js (s : string) : str := map N_of_ascii (list_ascii_of_string s).

Definition DOLLAR : char := 36%N.      (* $ *)
Definition AMP : char := 38%N.         (* & *)
Definition QUOTE : char := 39%N.       (* ' *)
Definition BACKTICK : char := 96%N.    (* ` *)
Definition DQ : char := 34%N.          (* the double quote *)
Definition LT : char := 60%N.          (* < *)
Definition SLASH : char := 47%N.       (* / *)

(** [s.startsWith(p)] *)
Fixpoint starts_with (p s : str) : bool :=
  match p, s with
  | [], _ => true
  | _ :: _, [] => false
  | a :: p', b :: s' => N.eqb a b && starts_with p' s'
  end.

(** [s.indexOf(p)]: the least position at which [p] occurs, [None] for -1. *)
Fixpoint indexOf (p s : str) : option nat :=
  if starts_with p s then Some 0
  else match s with
       | [] => None
       | _ :: s' => option_map S (indexOf p s')
       end.

(** GetSubstitution of ECMA-262 for a match without capture groups, which is
    the case of a string pattern and of both regular expressions of the
    handler: [$$] is a dollar, [$&] the matched text, [$`] the text before the
    match, [$'] the text after it; every other use of [$] stays as written. *)
Fixpoint GetSubstitution (matched before after repl : str) : str :=
  match repl with
  | [] => []
  | c :: r =>
    if N.eqb c DOLLAR then
      match r with
      | [] => [c]
      | d :: r' =>
        if N.eqb d DOLLAR then DOLLAR :: GetSubstitution matched before after r'
        else if N.eqb d AMP then matched ++ GetSubstitution matched before after r'
        else if N.eqb d BACKTICK then before ++ GetSubstitution matched before after r'
        else if N.eqb d QUOTE then after ++ GetSubstitution matched before after r'
        else c :: GetSubstitution matched before after r
      end
    else c :: GetSubstitution matched before after r
  end.

(** [s.replace(pat, repl)] with a string pattern: only the first occurrence
    is replaced; without an occurrence the string is returned unchanged. *)
Definition replace (pat repl s : str) : str :=
  match indexOf pat s with
  | None => s
  | Some i =>
    let before := take i s in
    let after := drop (i + length pat) s in
    before ++ GetSubstitution pat before after repl ++ after
  end.

(** A regular expression is given by its matcher: [re s = Some n] when the
    expression matches the first [n] code units of [s].  The expressions of
    the handler never match the empty string. *)
Definition regexp := str -> option nat.

(** [s.replace(/re/g, repl)]: every match, left to right, without overlap.
    [done] is the text already passed (for [$`]) and [skip] counts the code
    units of the current match that are still to be passed over. *)
Fixpoint replace_all_from (re : regexp) (repl done : str) (skip : nat) (s : str) : str :=
  match s with
  | [] => []
  | c :: s' =>
    match skip with
    | S k => replace_all_from re repl (done ++ [c]) k s'
    | O =>
      match re s with
      | Some (S k) =>
        GetSubstitution (take (S k) s) done (drop (S k) s) repl
          ++ replace_all_from re repl (done ++ [c]) k s'
      | _ => c :: replace_all_from re repl (done ++ [c]) 0 s'
      end
    end
  end.

Definition replace_all (re : regexp) (repl s : str) : str :=
  replace_all_from re repl [] 0 s.

(** The line terminators, which [.] does not match. *)
Definition line_terminator (c : char) : bool :=
  N.eqb c 10 || N.eqb c 13 || N.eqb c 8232 || N.eqb c 8233.

(** [.*?] followed by the literal [close]: the lazy quantifier takes the
    fewest code units, none of them a line terminator, after which [close]
    matches.  The result counts the code units taken, [close] included. *)
Fixpoint lazy_dots_then (close s : str) : option nat :=
  if starts_with close s then Some (length close)
  else match s with
       | [] => None
       | c :: s' =>
         if line_terminator c then None
         else option_map S (lazy_dots_then close s')
       end.

(** [open.*?close] *)
Definition re_between (open close : str) : regexp := fun s =>
  if starts_with open s
  then option_map (Nat.add (length open)) (lazy_dots_then close (drop (length open) s))
  else None.

(** A one-character expression such as [/</]. *)
Definition re_char (c : char) : regexp := fun s =>
  match s with
  | d :: _ => if N.eqb d c then Some 1 else None
  | [] => None
  end.

(** [s.replace(/^c/, empty)]: a leading [c] is dropped. *)
Definition strip_leading (c : char) (s : str) : str :=
  match s with
  | d :: s' => if N.eqb d c then s' else s
  | [] => []
  end.

(** [parts.join(empty)] *)
Definition join (parts : list str) : str := concat parts.

End JS.
Export JS.

(** ** The document assembler [injectHTML] *)

Record fragments := {
  html : str;
  title : str;
  meta : str;
  body : str;
  scripts : list str;
  styles : str;
  state : str
}.

Definition HTML_OPEN : str := js "<html>".
Definition TITLE_OPEN : str := js "<title>".
Definition TITLE_CLOSE : str := js "</title>".
Definition HEAD_CLOSE : str := js "</head>".
Definition BODY_CLOSE : str := js "</body>".
(** The placeholder container, [<div id="root"></div>]. *)
Definition ROOT : str := js "<div id=" ++ DQ :: js "root" ++ DQ :: js "></div>".
(** [/<title>.*?<\/title>/] *)
Definition TITLE_RE : regexp := re_between TITLE_OPEN TITLE_CLOSE.

Definition html_step (f : fragments) (data : str) : str :=
  replace HTML_OPEN (js "<html " ++ html f ++ js ">") data.

Definition title_step (f : fragments) (data : str) : str :=
  replace_all TITLE_RE (title f) data.

Definition head_step (f : fragments) (data : str) : str :=
  replace HEAD_CLOSE (meta f ++ styles f ++ js "</head>") data.

Definition root_filled (f : fragments) : str :=
  js "<div id=" ++ DQ :: js "root" ++ DQ :: js ">" ++ body f
    ++ js "</div><script>window.__PRELOADED_STATE__ = " ++ state f ++ js "</script>".

Definition root_step (f : fragments) (data : str) : str :=
  replace ROOT (root_filled f) data.

Definition scripts_step (f : fragments) (data : str) : str :=
  replace BODY_CLOSE (join (scripts f) ++ js "</body>") data.

Definition injectHTML (data : str) (f : fragments) : str :=
  let data := html_step f data in
  let data := title_step f data in
  let data := head_step f data in
  let data := root_step f data in
  let data := scripts_step f data in
  data.

(** ** The asset selector [extractAssets] and the script tags [extraChunks]

    The manifest is a JSON object; it is kept as the list of its entries in
    the order in which [Object.keys] enumerates them. *)

Definition Object_keys (o : list (str * str)) : list str := map fst o.

(** [o[k]], [None] for undefined. *)
Fixpoint get (o : list (str * str)) (k : str) : option str :=
  match o with
  | [] => None
  | (k', v) :: o' => if bool_decide (k' = k) then Some v else get o' k
  end.

(** [chunks.indexOf(x)], [None] for -1. *)
Fixpoint Array_indexOf (chunks : list str) (x : str) : option nat :=
  match chunks with
  | [] => None
  | y :: chunks' =>
    if bool_decide (y = x) then Some 0 else option_map S (Array_indexOf chunks' x)
  end.

(** The filter's test, [chunks.indexOf(asset.replace(".js", empty)) > -1]. *)
Definition touched (chunks : list str) (asset : str) : bool :=
  match Array_indexOf chunks (replace (js ".js") [] asset) with
  | Some _ => true
  | None => false
  end.

Definition extractAssets (assets : list (str * str)) (chunks : list str) : list str :=
  omap (get assets) (List.filter (touched chunks) (Object_keys assets)).

Definition script_tag (c : str) : str :=
  js "<script type=" ++ DQ :: js "text/javascript" ++ DQ :: js " src=" ++ DQ ::
    strip_leading SLASH c ++ DQ :: js "></script>".

Definition extraChunks (manifest : list (str * str)) (modules : list str) : list str :=
  map script_tag (extractAssets manifest modules).

(** ** The store and the authentication actions *)

Module Auth.

(** Modelled from the spec: the value of an entry of the application state
    container (section 3, a mapping from domain key to value), which
    ./dist/src/store defines and the repository does not hold.  The
    logged-out value is a value of its own, distinct from an absent entry. *)
Inductive value :=
| LoggedOut
| Val (v : str).

(** Modelled from the spec: the domain key of the current-user entry, which
    ./dist/src/modules/auth chooses and the repository does not hold. *)
Definition CURRENT_USER : str := js "currentUser".

(** The two actions the handler dispatches, as it builds them. *)
Inductive action :=
| setCurrentUser (user : str)
| logoutUser.

(** Modelled from the spec: the reducer of ./dist/src/modules/auth, which the
    repository does not hold (section 4.2: populate the current-user entry
    from the cookie's value, otherwise mark the state as logged out
    explicitly). *)
Definition reducer (st : gmap str value) (a : action) : gmap str value :=
  match a with
  | setCurrentUser user => <[CURRENT_USER := Val user]> st
  | logoutUser => <[CURRENT_USER := LoggedOut]> st
  end.

End Auth.
Export Auth.

(** A store holds the state container; [dispatched] records the actions it
    has received, oldest first. *)
Record Store := {
  getState : gmap str value;
  dispatched : list action
}.

(** [store.dispatch(a)] *)
Definition dispatch (a : action) (store : Store) : Store :=
  {| getState := reducer (getState store) a;
     dispatched := dispatched store ++ [a] |}.

(** ** Requests, replies and the world around the handler *)

Module Request.
(** [state] is hapi's name for the cookies of the request. *)
Record t := {
  url : str;
  state : gmap str str
}.
End Request.

(** A thrown value, by its message. *)
Abbreviation exn := (list N) (only parsing).

Inductive result (A : Type) :=
| Ok (a : A)
| Throw (e : exn).
Arguments Ok {A} a.
Arguments Throw {A} e.

#[global] Instance result_ret : MRet result := fun A a => Ok a.
#[global] Instance result_bind : MBind result := fun A B f m =>
  match m with
  | Ok a => f a
  | Throw e => Throw e
  end.

(** The response object that the toolkit [h] builds. *)
Record response := {
  payload : option str;
  statusCode : nat;
  headers : list (str * str)
}.

(** [h.response(payload)], [.code(c)] and [.header(name, value)] *)
Definition h_response (p : option str) : response :=
  {| payload := p; statusCode := 200; headers := [] |}.
Definition code (c : nat) (r : response) : response :=
  {| payload := payload r; statusCode := c; headers := headers r |}.
Definition header (name v : str) (r : response) : response :=
  {| payload := payload r; statusCode := statusCode r; headers := headers r ++ [(name, v)] |}.

(** What the handler returns: a response object, or the document itself. *)
Inductive reply :=
| Object (r : response)
| Text (document : str).

(** What [Helmet.renderStatic()] gives, each part after its [toString()]. *)
Record Helmet := {
  htmlAttributes : str;
  helmet_title : str;
  helmet_meta : str
}.

(** What the rendering pass leaves behind: the markup, the modules reported
    to [Loadable.Capture], the router's [context.url] ([None] for undefined),
    the store's state once rendering is done, and what the later calls to
    [Helmet.renderStatic()] and [sheet.getStyleTags()] give. *)
Record Rendered := {
  routeMarkup : str;
  modules : list str;
  context_url : option str;
  rendered_state : gmap str value;
  helmet : result Helmet;
  styleTags : result str
}.

(** What lies outside the handler: the template read of
    [fs.readFileSync], [createStore] at a url, the rendering pass
    [frontloadServerRender] at a url with a store, [JSON.stringify] ([None]
    for undefined) and the imported asset manifest. *)
Record World := {
  readFileSync : result str;
  createStore : str -> result Store;
  frontloadServerRender : str -> Store -> result Rendered;
  JSON_stringify : gmap str value -> option str;
  manifest : list (str * str)
}.

(** ** The handler [handlSSR] *)

Definition MYWEBSITE : str := js "mywebsite".

(** Lines 57 to 61: the cookie decides which action the store receives. *)
Definition setUser (request : Request.t) (store : Store) : Store :=
  match Request.state request !! MYWEBSITE with
  | Some user => dispatch (setCurrentUser user) store
  | None => dispatch logoutUser store
  end.

(** The replacement text of the state's escaping: a backslash, then u003c. *)
Definition U003C : str := js "\u003c".

(** [s.replace(/</g, U003C)] *)
Definition escape_lt (s : str) : str := replace_all (re_char LT) U003C s.

(** [JSON.stringify(st)] escaped; a call of [replace] on undefined throws. *)
Definition serialize (w : World) (st : gmap str value) : result str :=
  match JSON_stringify w st with
  | Some s => Ok (escape_lt s)
  | None => Throw (js "TypeError")
  end.

Definition redirect (target : str) : response :=
  header (js "Location") target (code 302 (h_response (Some (js "redirect...")))).

(** The fragment set handed to [injectHTML]. *)
Definition fragments_of (hl : Helmet) (r : Rendered) (chunks : list str) (st styl : str)
  : fragments :=
  {| html := htmlAttributes hl;
     title := helmet_title hl;
     meta := helmet_meta hl;
     body := routeMarkup r;
     scripts := chunks;
     styles := styl;
     state := st |}.

(** The body of the [try] block. *)
Definition try_block (w : World) (request : Request.t) : result reply :=
  htmlData ← readFileSync w;
  store ← createStore w (Request.url request);
  let store := setUser request store in
  r ← frontloadServerRender w (Request.url request) store;
  match context_url r with
  | Some (c :: u) => mret (Object (redirect (c :: u)))
  | _ =>
    let chunks := extraChunks (manifest w) (modules r) in
    hl ← helmet r;
    styl ← styleTags r;
    st ← serialize w (rendered_state r);
    mret (Text (injectHTML htmlData (fragments_of hl r chunks st styl)))
  end.

(** The outcome of a request: what is returned and what [console.error]
    has written. *)
Record outcome := {
  returned : reply;
  console : list (str * exn)
}.

Definition not_found (err : exn) : outcome :=
  {| returned := Object (code 404 (h_response None));
     console := [(js "Read error", err)] |}.

Definition handlSSR (w : World) (request : Request.t) : outcome :=
  match try_block w request with
  | Ok r => {| returned := r; console := [] |}
  | Throw err => not_found err
  end.

(** ** Vocabulary of the properties *)

(** [p] occurs in [s]. *)
Definition occurs (p s : str) : Prop := exists a b, s = a ++ p ++ b.

(** [re] matches somewhere in [s]. *)
Fixpoint has_match (re : regexp) (s : str) : bool :=
  match s with
  | [] => false
  | _ :: s' =>
    match re s with
    | Some (S _) => true
    | _ => has_match re s'
    end
  end.

(** [s] holds a title element as the assembler looks for it: the opening
    tag without attributes, the closing tag, and between them a text within
    one line. *)
Definition title_element (s : str) : Prop :=
  exists a t b,
    s = a ++ TITLE_OPEN ++ t ++ TITLE_CLOSE ++ b /\
    Forall (fun c => line_terminator c = false) t.

(** The number of positions of [s] at which [p] occurs. *)
Fixpoint occurrences (p s : str) : nat :=
  (if starts_with p s then 1 else 0) +
  match s with
  | [] => 0
  | _ :: s' => occurrences p s'
  end.

(** A well-formed template (section 4.5 of the specification): every marker
    appears exactly once and exactly as expected. *)
Definition well_formed (data : str) : bool :=
  Nat.eqb (occurrences HTML_OPEN data) 1
  && Nat.eqb (occurrences TITLE_OPEN data) 1
  && Nat.eqb (occurrences TITLE_CLOSE data) 1
  && has_match TITLE_RE data
  && Nat.eqb (occurrences HEAD_CLOSE data) 1
  && Nat.eqb (occurrences ROOT data) 1
  && Nat.eqb (occurrences BODY_CLOSE data) 1.

(** A manifest key that ends in [.js] and holds no [.js] before its end;
    [m] is the key without the suffix. *)
Definition js_suffix_only (key m : str) : Prop :=
  key = m ++ js ".js" /\ indexOf (js ".js") key = Some (length m).

(** The escaping of the state, one code unit at a time. *)
Definition escape_char (c : char) : str := if N.eqb c LT then U003C else [c].

(** The router's context carries no redirect target: [context.url] is
    undefined or the empty string, the values the handler's test takes for
    false. *)
Definition no_redirect (r : Rendered) : Prop :=
  context_url r = None \/ context_url r = Some [].

(** A step of the handler fails with [e]: the template read, the creation of
    the store, the rendering pass or, when there is no redirect, one of the
    calls that prepare the fragments. *)
Inductive fails (w : World) (request : Request.t) : exn -> Prop :=
| fails_read e :
    readFileSync w = Throw e ->
    fails w request e
| fails_store htmlData e :
    readFileSync w = Ok htmlData ->
    createStore w (Request.url request) = Throw e ->
    fails w request e
| fails_render htmlData store e :
    readFileSync w = Ok htmlData ->
    createStore w (Request.url request) = Ok store ->
    frontloadServerRender w (Request.url request) (setUser request store) = Throw e ->
    fails w request e
| fails_helmet htmlData store r e :
    readFileSync w = Ok htmlData ->
    createStore w (Request.url request) = Ok store ->
    frontloadServerRender w (Request.url request) (setUser request store) = Ok r ->
    no_redirect r ->
    helmet r = Throw e ->
    fails w request e
| fails_styles htmlData store r hl e :
    readFileSync w = Ok htmlData ->
    createStore w (Request.url request) = Ok store ->
    frontloadServerRender w (Request.url request) (setUser request store) = Ok r ->
    no_redirect r ->
    helmet r = Ok hl ->
    styleTags r = Throw e ->
    fails w request e
| fails_state htmlData store r hl styl :
    readFileSync w = Ok htmlData ->
    createStore w (Request.url request) = Ok store ->
    frontloadServerRender w (Request.url request) (setUser request store) = Ok r ->
    no_redirect r ->
    helmet r = Ok hl ->
    styleTags r = Ok styl ->
    JSON_stringify w (rendered_state r) = None ->
    fails w request (js "TypeError").

(** ** Sample inputs *)

Module Sample.

Definition template : str :=
  js "<!doctype html><html><head><title>yuntun</title></head><body>"
    ++ ROOT ++ js "</body></html>".

Definition store : Store := {| getState := ∅; dispatched := [] |}.

Definition request : Request.t :=
  {| Request.url := js "/regist"; Request.state := ∅ |}.

Definition rendered (target : option str) (st : gmap str value) : Rendered :=
  {| routeMarkup := js "<form>regist</form>";
     modules := [js "regist"];
     context_url := target;
     rendered_state := st;
     helmet := Ok {| htmlAttributes := js "lang=zh";
                     helmet_title := js "<title data-react-helmet=true>Regist</title>";
                     helmet_meta := js "<meta charset=utf-8>" |};
     styleTags := Ok (js "<style>a{}</style>") |}.

(** The JSON text [{"note":"a<b"}]. *)
Definition json : str :=
  js "{" ++ DQ :: js "note" ++ DQ :: js ":" ++ DQ :: js "a<b" ++ DQ :: js "}".

(** A world whose template read gives [file] and whose router redirects to
    [target], if any. *)
Definition world (file : result str) (target : option str) : World :=
  {| readFileSync := file;
     createStore := fun _ => Ok store;
     frontloadServerRender := fun _ s => Ok (rendered target (getState s));
     JSON_stringify := fun _ => Some json;
     manifest := [(js "regist.js", js "/static/regist.abc123.js")] |}.

(** The document of the request above when nothing redirects. *)
Definition document : str :=
  injectHTML template
    (fragments_of
       {| htmlAttributes := js "lang=zh";
          helmet_title := js "<title data-react-helmet=true>Regist</title>";
          helmet_meta := js "<meta charset=utf-8>" |}
       (rendered None (getState (setUser request store)))
       (extraChunks [(js "regist.js", js "/static/regist.abc123.js")] [js "regist"])
       (escape_lt json)
       (js "<style>a{}</style>")).

(** A fragment set with head metadata and one without metadata, styles and
    scripts. *)
Definition with_meta : fragments :=
  {| html := js "lang=zh";
     title := js "<title data-react-helmet=true>Regist</title>";
     meta := js "<meta charset=utf-8>";
     body := js "<form>regist</form>";
     scripts := [];
     styles := [];
     state := js "{}" |}.

Definition bare : fragments :=
  {| html := js "lang=zh";
     title := js "<title data-react-helmet=true>Regist</title>";
     meta := [];
     body := js "<form>regist</form>";
     scripts := [];
     styles := [];
     state := js "{}" |}.

(** A fragment set without metadata, styles and scripts whose body markup
    is empty. *)
Definition empty_body : fragments :=
  {| html := js "lang=zh";
     title := js "<title data-react-helmet=true>Regist</title>";
     meta := [];
     body := [];
     scripts := [];
     styles := [];
     state := js "{}" |}.

(** A fragment set whose body markup holds two dollars in a row. *)
Definition priced : fragments :=
  {| html := [];
     title := js "<title>Shop</title>";
     meta := [];
     body := js "<p>US$$ 5</p>";
     scripts := [];
     styles := [];
     state := js "{}" |}.

(** A fragment set whose head metadata holds the placeholder container. *)
Definition meta_with_root : fragments :=
  {| html := [];
     title := [];
     meta := ROOT;
     body := js "<form>regist</form>";
     scripts := [];
     styles := [];
     state := js "{}" |}.

End Sample.

(** ** Vocabulary of the further properties *)

(** The first occurrence of [p] in [s] is the one after [a]. *)
Definition first_at (p a s : str) : Prop := indexOf p s = Some (length a).

(** A text without a dollar: as a replacement text it stands for itself. *)
Definition plain (s : str) : Prop := ~ In DOLLAR s.

(** The first match of [re] in [s]: where it starts and how long it is. *)
Fixpoint first_match (re : regexp) (s : str) : option (nat * nat) :=
  match s with
  | [] => None
  | _ :: s' =>
    match re s with
    | Some (S k) => Some (0, S k)
    | _ =>
      match first_match re s' with
      | Some (i, n) => Some (S i, n)
      | None => None
      end
    end
  end.

(** A template cut at its markers. *)
Record parts := {
  before_html : str;
  html_to_title : str;
  title_text : str;
  title_to_head : str;
  head_to_root : str;
  root_to_body : str;
  after_body : str
}.

Definition template_of (p : parts) : str :=
  before_html p ++ HTML_OPEN ++ html_to_title p
    ++ (TITLE_OPEN ++ title_text p ++ TITLE_CLOSE) ++ title_to_head p
    ++ HEAD_CLOSE ++ head_to_root p ++ ROOT ++ root_to_body p
    ++ BODY_CLOSE ++ after_body p.

(** The document in which every fragment stands at its marker. *)
Definition document_of (p : parts) (f : fragments) : str :=
  before_html p ++ (js "<html " ++ html f ++ js ">") ++ html_to_title p
    ++ title f ++ title_to_head p
    ++ (meta f ++ styles f ++ HEAD_CLOSE) ++ head_to_root p
    ++ root_filled f ++ root_to_body p
    ++ (join (scripts f) ++ BODY_CLOSE) ++ after_body p.

(** The texts that reach the second, third, fourth and fifth step, each cut
    at the marker of that step: what stands before it and what after. *)
Definition upto_title (p : parts) (f : fragments) : str :=
  before_html p ++ (js "<html " ++ html f ++ js ">") ++ html_to_title p.
Definition from_title (p : parts) : str :=
  title_to_head p ++ HEAD_CLOSE ++ head_to_root p ++ ROOT ++ root_to_body p
    ++ BODY_CLOSE ++ after_body p.
Definition upto_head (p : parts) (f : fragments) : str :=
  upto_title p f ++ title f ++ title_to_head p.
Definition from_head (p : parts) : str :=
  head_to_root p ++ ROOT ++ root_to_body p ++ BODY_CLOSE ++ after_body p.
Definition upto_root (p : parts) (f : fragments) : str :=
  upto_head p f ++ (meta f ++ styles f ++ HEAD_CLOSE) ++ head_to_root p.
Definition from_root (p : parts) : str :=
  root_to_body p ++ BODY_CLOSE ++ after_body p.
Definition upto_body (p : parts) (f : fragments) : str :=
  upto_root p f ++ root_filled f ++ root_to_body p.

(** Each step finds, as the first occurrence of its marker in the text that
    reaches it, the marker at which the template was cut; the title element
    of the template is the only one. *)
Record markers_in_place (p : parts) (f : fragments) : Prop := {
  html_in_place : first_at HTML_OPEN (before_html p) (template_of p);
  title_in_place :
    first_match TITLE_RE
      (upto_title p f ++ (TITLE_OPEN ++ title_text p ++ TITLE_CLOSE) ++ from_title p)
    = Some (length (upto_title p f),
            length (TITLE_OPEN ++ title_text p ++ TITLE_CLOSE));
  title_alone : has_match TITLE_RE (from_title p) = false;
  head_in_place :
    first_at HEAD_CLOSE (upto_head p f) (upto_head p f ++ HEAD_CLOSE ++ from_head p);
  root_in_place :
    first_at ROOT (upto_root p f) (upto_root p f ++ ROOT ++ from_root p);
  body_in_place :
    first_at BODY_CLOSE (upto_body p f) (upto_body p f ++ BODY_CLOSE ++ after_body p)
}.

Record plain_fragments (f : fragments) : Prop := {
  plain_html : plain (html f);
  plain_title : plain (title f);
  plain_meta : plain (meta f);
  plain_styles : plain (styles f);
  plain_body : plain (body f);
  plain_state : plain (state f);
  plain_scripts : Forall plain (scripts f)
}.

(** ** The countdown of the registration page

    The [Regist] component of src/app/routes/login/index.js keeps one piece
    of state, [countdown], and one effect that depends on it.  The model
    follows the component from its first render for as long as it stays
    mounted. *)

Module Regist.

Local Open Scope Z_scope.

(** A rendered component: the state and the timer that the effect of this
    render has set, with the value of [countdown] in its closure. *)
Record t := {
  countdown : Z;
  timer : option Z
}.

(** The effect: no timer when [countdown === 0], else a timer. *)
Definition useEffect (countdown : Z) : option Z :=
  if Z.eqb countdown 0 then None else Some countdown.

(** The first render, after [useState(0)]. *)
Definition mount : t := {| countdown := 0; timer := useEffect 0 |}.

(** [setCount(n)]: a new value renders again, the cleanup of the old effect
    clears its timer and the effect runs on the new value; the value the
    state already has changes nothing. *)
Definition setCount (n : Z) (s : t) : t :=
  if Z.eqb n (countdown s) then s
  else {| countdown := n; timer := useEffect n |}.

(** The timer fires: [setCount(--countdown)] on the closure's value. *)
Definition fire (s : t) : option t :=
  match timer s with
  | Some c => Some (setCount (c - 1) {| countdown := countdown s; timer := None |})
  | None => None
  end.

(** [disabled={countdown}]: the button is disabled by a number other than 0. *)
Definition disabled (s : t) : bool := negb (Z.eqb (countdown s) 0).

(** A click on the button, which a disabled button does not take:
    [setCount(60)]. *)
Definition click (s : t) : option t :=
  if disabled s then None else Some (setCount 60 s).

Inductive event := Click | Fire.

Definition step (s : t) (e : event) : option t :=
  match e with
  | Click => click s
  | Fire => fire s
  end.

Fixpoint run (s : t) (events : list event) : option t :=
  match events with
  | [] => Some s
  | e :: events' =>
    match step s e with
    | Some s' => run s' events'
    | None => None
    end
  end.

(** The states the component can be in. *)
Definition reachable (s : t) : Prop := exists events, run mount events = Some s.

(** The countdown is within its range and the timer is the one of the
    effect. *)
Definition settled (s : t) : Prop :=
  0 <= countdown s <= 60 /\ timer s = useEffect (countdown s).

End Regist.

(** ** Further sample inputs *)

Module Cases.

Definition sample_parts : parts :=
  {| before_html := js "<!doctype html>";
     html_to_title := js "<head>";
     title_text := js "yuntun";
     title_to_head := [];
     head_to_root := js "<body>";
     root_to_body := [];
     after_body := js "</html>" |}.

Definition other_cookies : Request.t :=
  {| Request.url := js "/regist";
     Request.state := {[ js "theme" := js "dark" ]} |}.

(** A request whose cookie [mywebsite] is a dollar and a quote. *)
Definition dollar_cookie : Request.t :=
  {| Request.url := js "/regist";
     Request.state := {[ MYWEBSITE := [DOLLAR; QUOTE] ]} |}.

(** The JSON text [{"currentUser":"$'"}] of a state whose current user is
    that cookie. *)
Definition dollar_json : str :=
  js "{" ++ DQ :: js "currentUser" ++ DQ :: js ":" ++ DQ :: DOLLAR :: QUOTE :: DQ :: js "}".

(** The sample world with this JSON text for the state and with an empty
    manifest. *)
Definition dollar_world : World :=
  {| readFileSync := Ok Sample.template;
     createStore := fun _ => Ok Sample.store;
     frontloadServerRender := fun _ s => Ok (Sample.rendered None (getState s));
     JSON_stringify := fun _ => Some dollar_json;
     manifest := [] |}.

(** The state script that the document of this request holds: in the place
    of the dollar and the quote stands the text that followed the
    placeholder. *)
Definition dollar_script : str :=
  js "<script>window.__PRELOADED_STATE__ = {" ++ DQ :: js "currentUser" ++ DQ :: js ":"
    ++ DQ :: js "</body></html>" ++ DQ :: js "}</script>".

End Cases.

(** * Properties *)

(** ** Strings: occurrences and replacement *)

Section Strings.

Implicit Types p s a b repl : str.

Lemma starts_with_app p b : starts_with p (p ++ b) = true.
Proof.
  induction p as [|c p IH]; simpl; [reflexivity|].
  now rewrite N.eqb_refl, IH.
Qed.

Lemma starts_with_inv p s :
  starts_with p s = true -> s = p ++ drop (length p) s.
Proof.
  revert s. induction p as [|c p IH]; intros [|d s] H; simpl in *;
    try reflexivity; try discriminate.
  apply andb_prop in H as [Hc Hp]. apply N.eqb_eq in Hc. subst d.
  f_equal. now apply IH.
Qed.

Lemma indexOf_Some p s i :
  indexOf p s = Some i ->
  starts_with p (drop i s) = true /\
  forall j, j < i -> starts_with p (drop j s) = false.
Proof.
  revert i. induction s as [|c s IH]; intros i; simpl.
  - destruct (starts_with p []) eqn:E; [|discriminate].
    intros [= <-]. split; [exact E | intros j Hj; lia].
  - destruct (starts_with p (c :: s)) eqn:E.
    + intros [= <-]. split; [exact E | intros j Hj; lia].
    + destruct (indexOf p s) as [k|] eqn:Ek; simpl; [|discriminate].
      intros [= <-]. destruct (IH k eq_refl) as [Hk Hlt].
      split; [exact Hk|]. intros [|j] Hj; [exact E|].
      apply Hlt. lia.
Qed.

Lemma indexOf_None p s :
  indexOf p s = None -> forall j, starts_with p (drop j s) = false.
Proof.
  induction s as [|c s IH]; simpl.
  - destruct (starts_with p []) eqn:E; [discriminate|].
    intros _ j. now rewrite drop_nil.
  - destruct (starts_with p (c :: s)) eqn:E; [discriminate|].
    destruct (indexOf p s) eqn:Ek; simpl; [discriminate|].
    intros _ [|j]; [exact E|]. now apply IH.
Qed.

(** The position [indexOf] gives is an occurrence: the string splits there. *)
Lemma indexOf_split p s i :
  indexOf p s = Some i -> s = take i s ++ p ++ drop (i + length p) s.
Proof.
  intros H. apply indexOf_Some in H as [H _].
  apply starts_with_inv in H. rewrite drop_drop in H.
  rewrite <- H. symmetry. apply take_drop.
Qed.

Lemma indexOf_None_iff p s : indexOf p s = None <-> ~ occurs p s.
Proof.
  split.
  - intros H (a & b & ->).
    pose proof (indexOf_None _ _ H (length a)) as Hf.
    rewrite drop_app_length in Hf. now rewrite starts_with_app in Hf.
  - intros H. destruct (indexOf p s) as [i|] eqn:E; [|reflexivity].
    exfalso. apply H. eexists _, _. exact (indexOf_split _ _ _ E).
Qed.

(** When the first occurrence of [p] is the one shown, [indexOf] finds it. *)
Lemma indexOf_first p a b :
  (forall j, j < length a -> starts_with p (drop j (a ++ p ++ b)) = false) ->
  indexOf p (a ++ p ++ b) = Some (length a).
Proof.
  intros Hlt. destruct (indexOf p (a ++ p ++ b)) as [i|] eqn:E.
  - destruct (indexOf_Some _ _ _ E) as [Hi Hmin].
    destruct (lt_eq_lt_dec i (length a)) as [[Hl | ->] | Hl]; [| reflexivity |].
    + rewrite (Hlt i Hl) in Hi. discriminate.
    + specialize (Hmin (length a) Hl).
      rewrite drop_app_length in Hmin. now rewrite starts_with_app in Hmin.
  - pose proof (indexOf_None _ _ E (length a)) as Hf.
    rewrite drop_app_length in Hf. now rewrite starts_with_app in Hf.
Qed.

(** A replacement text without a dollar stands for itself. *)
Lemma GetSubstitution_plain m a b repl :
  ~ In DOLLAR repl -> GetSubstitution m a b repl = repl.
Proof.
  induction repl as [|c r IH]; intros H; simpl; [reflexivity|].
  destruct (N.eqb_spec c DOLLAR) as [E|_]; [exfalso; apply H; now left|].
  rewrite IH; [reflexivity | intros Hin; apply H; now right].
Qed.

(** A literal is checked for dollars by evaluation. *)
Lemma plain_literal (l : str) : existsb (N.eqb DOLLAR) l = false -> ~ In DOLLAR l.
Proof.
  intros H Hin. assert (existsb (N.eqb DOLLAR) l = true) as E; [|congruence].
  apply existsb_exists. exists DOLLAR. split; [exact Hin | apply N.eqb_refl].
Qed.

Lemma replace_absent p repl s : indexOf p s = None -> replace p repl s = s.
Proof. unfold replace. now intros ->. Qed.

Lemma replace_found p repl s i :
  indexOf p s = Some i ->
  replace p repl s =
    take i s ++ GetSubstitution p (take i s) (drop (i + length p) s) repl
      ++ drop (i + length p) s.
Proof. unfold replace. now intros ->. Qed.

(** Replacing the first occurrence of [p], which is after [a] and before
    [b], by a text without a dollar puts that text between [a] and [b]. *)
Lemma replace_first p repl a b :
  indexOf p (a ++ p ++ b) = Some (length a) ->
  ~ In DOLLAR repl ->
  replace p repl (a ++ p ++ b) = a ++ repl ++ b.
Proof.
  intros Hi Hd. rewrite (replace_found _ _ _ _ Hi).
  rewrite take_app_length.
  replace (drop (length a + length p) (a ++ p ++ b)) with b.
  - now rewrite GetSubstitution_plain.
  - rewrite <- drop_drop, drop_app_length. now rewrite drop_app_length.
Qed.

Lemma replace_self p s : ~ In DOLLAR p -> replace p p s = s.
Proof.
  intros Hd. unfold replace. destruct (indexOf p s) as [i|] eqn:E; [|reflexivity].
  rewrite GetSubstitution_plain by exact Hd. symmetry. now apply indexOf_split.
Qed.

Lemma replace_all_from_no_match re repl done s :
  has_match re s = false -> replace_all_from re repl done 0 s = s.
Proof.
  revert done. induction s as [|c s IH]; intros done H; simpl in *; [reflexivity|].
  destruct (re (c :: s)) as [[|k]|]; try discriminate; now rewrite IH.
Qed.

Lemma replace_all_no_match re repl s :
  has_match re s = false -> replace_all re repl s = s.
Proof. apply replace_all_from_no_match. Qed.

End Strings.

(** The four patterns of a replacement text, and a dollar that is none. *)
Example GetSubstitution_patterns :
  replace (js "ab") (js "[$$|$&|$`|$'|$1]") (js "xxabyy") = js "xx[$|ab|xx|yy|$1]yy".
Proof. reflexivity. Qed.

(** Only the first occurrence of a string pattern is replaced, each match of
    a global expression is. *)
Example replace_first_only :
  replace (js "</head>") (js "-") (js "a</head>b</head>") = js "a-b</head>".
Proof. reflexivity. Qed.

Example replace_all_titles :
  replace_all TITLE_RE (js "T") (js "<title>a</title><title>b</title><title x>c</title>")
    = js "TT<title x>c</title>".
Proof. reflexivity. Qed.

(** ** The escaping of the serialized state *)

Lemma U003C_plain : ~ In DOLLAR U003C.
Proof. now apply plain_literal. Qed.

Lemma escape_lt_from done s :
  replace_all_from (re_char LT) U003C done 0 s = flat_map escape_char s.
Proof.
  revert done. induction s as [|c s IH]; intros done; [reflexivity|].
  cbn [replace_all_from re_char flat_map]. unfold escape_char at 1.
  destruct (N.eqb c LT).
  - rewrite GetSubstitution_plain by exact U003C_plain.
    now rewrite IH.
  - now rewrite IH.
Qed.

(** Every [<] becomes the escape, every other code unit stays. *)
Lemma escape_lt_flat_map s : escape_lt s = flat_map escape_char s.
Proof. apply escape_lt_from. Qed.

Lemma escape_lt_no_lt s : ~ In LT (escape_lt s).
Proof.
  rewrite escape_lt_flat_map, in_flat_map. intros (c & _ & Hc).
  unfold escape_char in Hc. destruct (N.eqb_spec c LT) as [E|Hne].
  - vm_compute in Hc. intuition discriminate.
  - destruct Hc as [Hc|[]]. now apply Hne.
Qed.

(** ** The outcomes of the handler *)

Section Handler.

Variable w : World.
Variable request : Request.t.

Ltac run_handler :=
  unfold handlSSR, try_block, mbind, result_bind, mret, result_ret.

(** A document is returned only after every step has succeeded, and it is
    the assembly of the whole fragment set. *)
Lemma handlSSR_document document :
  returned (handlSSR w request) = Text document ->
  exists htmlData store r hl styl json,
    readFileSync w = Ok htmlData /\
    createStore w (Request.url request) = Ok store /\
    frontloadServerRender w (Request.url request) (setUser request store) = Ok r /\
    no_redirect r /\
    helmet r = Ok hl /\
    styleTags r = Ok styl /\
    JSON_stringify w (rendered_state r) = Some json /\
    document =
      injectHTML htmlData
        (fragments_of hl r (extraChunks (manifest w) (modules r)) (escape_lt json) styl).
Proof.
  run_handler. unfold serialize, no_redirect.
  destruct (readFileSync w) as [htmlData|] eqn:E1; [|discriminate].
  destruct (createStore w _) as [store|] eqn:E2; [|discriminate].
  destruct (frontloadServerRender w _ _) as [r|] eqn:E3; [|discriminate].
  destruct (context_url r) as [[|c u]|] eqn:E4; try discriminate;
    (destruct (helmet r) as [hl|] eqn:E5; [|discriminate]);
    (destruct (styleTags r) as [styl|] eqn:E6; [|discriminate]);
    (destruct (JSON_stringify w _) as [json|] eqn:E7; [|discriminate]);
    cbn; intros [= <-]; exists htmlData, store, r, hl, styl, json; intuition.
Qed.

(** Whatever is returned, the store that the rendering pass received had
    been through [setUser]. *)
Lemma handlSSR_not_found_or_rendered :
  (exists e, handlSSR w request = not_found e) \/
  exists store r,
    createStore w (Request.url request) = Ok store /\
    frontloadServerRender w (Request.url request) (setUser request store) = Ok r.
Proof.
  run_handler.
  destruct (readFileSync w) as [htmlData|]; [|left; eauto].
  destruct (createStore w _) as [store|]; [|left; eauto].
  destruct (frontloadServerRender w _ _) as [r|] eqn:E; [|left; eauto].
  right. eauto.
Qed.

(** The try block throws exactly when one of its steps fails. *)
Lemma try_block_throws e : try_block w request = Throw e <-> fails w request e.
Proof.
  split.
  - run_handler. unfold serialize.
    destruct (readFileSync w) as [htmlData|] eqn:E1;
      [|intros [= <-]; now apply fails_read].
    destruct (createStore w _) as [store|] eqn:E2;
      [|intros [= <-]; now apply (fails_store _ _ htmlData)].
    destruct (frontloadServerRender w _ _) as [r|] eqn:E3;
      [|intros [= <-]; now apply (fails_render _ _ htmlData store)].
    destruct (context_url r) as [[|c u]|] eqn:E4; [| discriminate |];
      (assert (no_redirect r) as N by (unfold no_redirect; rewrite E4; auto));
      (destruct (helmet r) as [hl|] eqn:E5;
         [|intros [= <-]; now apply (fails_helmet _ _ htmlData store r)]);
      (destruct (styleTags r) as [styl|] eqn:E6;
         [|intros [= <-]; now apply (fails_styles _ _ htmlData store r hl)]);
      (destruct (JSON_stringify w _) as [json|] eqn:E7; [discriminate|]);
      intros [= <-]; now apply (fails_state _ _ htmlData store r hl styl).
  - run_handler. unfold serialize.
    intros [e' E1 | d e' E1 E2 | d s e' E1 E2 E3 | d s r e' E1 E2 E3 N E5
           | d s r hl e' E1 E2 E3 N E5 E6 | d s r hl styl E1 E2 E3 N E5 E6 E7];
      rewrite E1; try rewrite E2; try rewrite E3; try reflexivity;
      destruct N as [-> | ->]; rewrite E5; try rewrite E6; try rewrite E7; reflexivity.
Qed.

End Handler.

(** C1. The state initializer reads the cookie [mywebsite]: when the cookie is
    present the store receives [setCurrentUser] with the cookie's value and
    the current-user entry is that value; when it is absent the store
    receives [logoutUser] and the entry is the logged-out value, present in
    the container rather than missing.  The store receives exactly one
    action, whatever it held before. *)
Theorem setUser_current_user (request : Request.t) (store : Store) :
  let store' := setUser request store in
  getState store' !! CURRENT_USER =
    Some (match Request.state request !! MYWEBSITE with
          | Some user => Val user
          | None => LoggedOut
          end) /\
  dispatched store' =
    dispatched store ++
      [match Request.state request !! MYWEBSITE with
       | Some user => setCurrentUser user
       | None => logoutUser
       end].
Proof.
  unfold setUser. destruct (Request.state request !! MYWEBSITE) as [user|]; cbn;
    (split; [apply lookup_insert_eq | reflexivity]).
Qed.

(** C2. When the rendering pass leaves a redirect target in the router's
    context, the handler answers with status 302 and a Location header that
    holds exactly that target; what it returns is this response object and
    not a document. *)
Theorem redirect_response (w : World) (request : Request.t)
    (htmlData : str) (store : Store) (r : Rendered) (target : str) :
  readFileSync w = Ok htmlData ->
  createStore w (Request.url request) = Ok store ->
  frontloadServerRender w (Request.url request) (setUser request store) = Ok r ->
  context_url r = Some target ->
  target <> [] ->
  handlSSR w request =
    {| returned := Object {| payload := Some (js "redirect...");
                             statusCode := 302;
                             headers := [(js "Location", target)] |};
       console := [] |} /\
  forall document, returned (handlSSR w request) <> Text document.
Proof.
  intros E1 E2 E3 E4 Hne.
  assert (handlSSR w request =
    {| returned := Object {| payload := Some (js "redirect...");
                             statusCode := 302;
                             headers := [(js "Location", target)] |};
       console := [] |}) as ->.
  { unfold handlSSR, try_block, mbind, result_bind.
    rewrite E1, E2, E3, E4. destruct target as [|c u]; [congruence|].
    reflexivity. }
  split; [reflexivity | discriminate].
Qed.

Lemma redirect_response_witness :
  handlSSR (Sample.world (Ok Sample.template) (Some (js "/login"))) Sample.request =
    {| returned := Object {| payload := Some (js "redirect...");
                             statusCode := 302;
                             headers := [(js "Location", js "/login")] |};
       console := [] |} /\
  forall document,
    returned (handlSSR (Sample.world (Ok Sample.template) (Some (js "/login")))
                Sample.request) <> Text document.
Proof.
  apply (redirect_response
           (Sample.world (Ok Sample.template) (Some (js "/login"))) Sample.request
           Sample.template Sample.store
           (Sample.rendered (Some (js "/login"))
              (getState (setUser Sample.request Sample.store)))
           (js "/login")); try reflexivity.
  discriminate.
Defined.

(** C3. When a step of the handler fails, be it the template read or the
    rendering pass or any other step inside the try block, the error is
    caught and logged and the handler answers with status 404 and no body;
    no document is returned. *)
Theorem failure_not_found (w : World) (request : Request.t) (e : exn) :
  fails w request e ->
  returned (handlSSR w request) =
    Object {| payload := None; statusCode := 404; headers := [] |} /\
  console (handlSSR w request) = [(js "Read error", e)].
Proof.
  intros H. apply try_block_throws in H. unfold handlSSR. rewrite H.
  split; reflexivity.
Qed.

Lemma failure_not_found_witness :
  returned (handlSSR (Sample.world (Throw (js "ENOENT")) None) Sample.request) =
    Object {| payload := None; statusCode := 404; headers := [] |} /\
  console (handlSSR (Sample.world (Throw (js "ENOENT")) None) Sample.request) =
    [(js "Read error", js "ENOENT")].
Proof.
  apply (failure_not_found (Sample.world (Throw (js "ENOENT")) None) Sample.request
           (js "ENOENT")).
  apply fails_read. reflexivity.
Defined.

(** C4. A state whose JSON text holds a dollar and a quote: the escaping finds
    no [<] in it and leaves it as it is, and the assembler, which takes the
    state as part of a replacement text, puts the text after the placeholder
    in the place of the two; the state script of the returned document
    holds [<]. *)
Theorem state_script_holds_lt :
  escape_lt Cases.dollar_json = Cases.dollar_json /\
  ~ In LT (escape_lt Cases.dollar_json) /\
  (exists a b,
     returned (handlSSR Cases.dollar_world Cases.dollar_cookie)
     = Text (a ++ Cases.dollar_script ++ b)) /\
  In LT (drop (length (js "<script>")) Cases.dollar_script).
Proof.
  split; [reflexivity|]. split; [apply escape_lt_no_lt|]. split.
  - exists (js "<!doctype html><html lang=zh><head>"
              ++ js "<title data-react-helmet=true>Regist</title>"
              ++ js "<meta charset=utf-8><style>a{}</style></head><body>"
              ++ js "<div id=" ++ DQ :: js "root" ++ DQ :: js "><form>regist</form></div>"),
      (js "</body></html>").
    reflexivity.
  - vm_compute. tauto.
Qed.

(** C10. Whenever the handler answers with status 302, the body of the
    response is the literal [redirect...], which is not empty. *)
Theorem redirect_body (w : World) (request : Request.t) (r : response) :
  returned (handlSSR w request) = Object r ->
  statusCode r = 302 ->
  payload r = Some (js "redirect...") /\ js "redirect..." <> [].
Proof.
  unfold handlSSR, try_block, mbind, result_bind, mret, result_ret, serialize.
  destruct (readFileSync w); [|cbn; intros [= <-]; discriminate].
  destruct (createStore w _); [|cbn; intros [= <-]; discriminate].
  destruct (frontloadServerRender w _ _) as [rd|]; [|cbn; intros [= <-]; discriminate].
  destruct (context_url rd) as [[|c u]|];
    try (cbn; intros [= <-] _; split; [reflexivity | discriminate]);
    destruct (helmet rd); try (cbn; intros [= <-]; discriminate);
    destruct (styleTags rd); try (cbn; intros [= <-]; discriminate);
    destruct (JSON_stringify w _); cbn; try discriminate; intros [= <-]; discriminate.
Qed.

Lemma redirect_body_witness :
  payload (redirect (js "/login")) = Some (js "redirect...") /\ js "redirect..." <> [].
Proof.
  apply (redirect_body (Sample.world (Ok Sample.template) (Some (js "/login")))
           Sample.request (redirect (js "/login"))); reflexivity.
Defined.

(** ** The asset selector *)

Lemma Array_indexOf_In chunks x :
  (exists i, Array_indexOf chunks x = Some i) <-> In x chunks.
Proof.
  induction chunks as [|y chunks IH]; simpl.
  - split; [intros [i H]; discriminate | intros []].
  - case_bool_decide as E.
    + split; [now left | eauto].
    + split.
      * intros [i H]. right. apply IH.
        destruct (Array_indexOf chunks x); [eauto | discriminate].
      * intros [Hy | Hin]; [contradiction|].
        apply IH in Hin as [i ->]. simpl. eauto.
Qed.

(** The filter keeps a key when the key without its first [.js] is among
    the touched modules. *)
Lemma touched_true chunks asset :
  touched chunks asset = true <-> In (replace (js ".js") [] asset) chunks.
Proof.
  unfold touched. rewrite <- Array_indexOf_In.
  destruct (Array_indexOf chunks _); split; eauto; try discriminate.
  intros [i H]. discriminate.
Qed.

(** When [.js] occurs in a key at its end only, removing it is removing the
    suffix. *)
Lemma replace_js_suffix (m : str) :
  indexOf (js ".js") (m ++ js ".js") = Some (length m) ->
  replace (js ".js") [] (m ++ js ".js") = m.
Proof.
  intros H. pose proof (replace_first (js ".js") [] m []) as R.
  rewrite !app_nil_r in R. apply R; [exact H | intros []].
Qed.

Lemma omap_cons {A B} (f : A -> option B) (x : A) (l : list A) :
  omap f (x :: l) = match f x with Some y => y :: omap f l | None => omap f l end.
Proof. reflexivity. Qed.

Lemma get_other k v o (l : list str) :
  ~ In k l -> omap (get ((k, v) :: o)) l = omap (get o) l.
Proof.
  induction l as [|k' l IH]; intros H; [reflexivity|].
  rewrite !omap_cons, IH by (intros Hin; apply H; now right).
  cbn [get]. case_bool_decide as E; [subst; exfalso; apply H; now left | reflexivity].
Qed.

(** The selection keeps the manifest's order: it is the manifest's list of
    entries, filtered. *)
Lemma extractAssets_filter assets chunks :
  NoDup (Object_keys assets) ->
  extractAssets assets chunks =
    map snd (List.filter (fun kv => touched chunks (fst kv)) assets).
Proof.
  unfold extractAssets. induction assets as [|[k v] o IH]; intros Hnd; [reflexivity|].
  apply NoDup_cons in Hnd as [Hk Hnd]. cbn [Object_keys map fst List.filter].
  assert (~ In k (List.filter (touched chunks) (Object_keys o))) as Hk'.
  { intros Hin. apply filter_In in Hin as [Hin _]. apply Hk, list_elem_of_In, Hin. }
  destruct (touched chunks k).
  - rewrite omap_cons. cbn [get]. rewrite bool_decide_eq_true_2 by reflexivity.
    cbn [map snd]. f_equal. rewrite <- (IH Hnd). now apply get_other.
  - rewrite <- (IH Hnd). now apply get_other.
Qed.

Lemma extractAssets_In assets chunks path :
  NoDup (Object_keys assets) ->
  In path (extractAssets assets chunks) <->
  exists key, In (key, path) assets /\ In (replace (js ".js") [] key) chunks.
Proof.
  intros Hnd. rewrite (extractAssets_filter _ _ Hnd), in_map_iff. split.
  - intros ([k v] & <- & Hin). apply filter_In in Hin as [Hin Ht].
    exists k. split; [exact Hin | now apply touched_true].
  - intros (k & Hin & Ht). exists (k, path). split; [reflexivity|].
    apply filter_In. split; [exact Hin | now apply touched_true].
Qed.

(** On a manifest whose keys hold [.js] at their end only, a path is
    selected exactly when its key without the suffix is a touched module. *)
Lemma extractAssets_suffix_keys assets chunks path :
  NoDup (Object_keys assets) ->
  (forall key v, In (key, v) assets -> exists m, js_suffix_only key m) ->
  In path (extractAssets assets chunks) <->
  exists m, In (m ++ js ".js", path) assets /\ In m chunks.
Proof.
  intros Hnd Hkeys. rewrite (extractAssets_In _ _ _ Hnd). split.
  - intros (key & Hin & Ht). destruct (Hkeys _ _ Hin) as (m & -> & Hm).
    rewrite (replace_js_suffix _ Hm) in Ht. eauto.
  - intros (m & Hin & Hm). exists (m ++ js ".js"). split; [exact Hin|].
    destruct (Hkeys _ _ Hin) as (m' & E & Hm').
    apply app_inv_tail in E. subst m'. now rewrite (replace_js_suffix _ Hm').
Qed.

(** C5. A manifest key that has [.js] before its end: the key without its
    suffix is a touched module, yet the selector returns nothing, because
    it removes the first [.js] of the key and compares what is left. *)
Theorem extractAssets_js_inside_key :
  js "pdf.js-viewer.js" = js "pdf.js-viewer" ++ js ".js" /\
  replace (js ".js") [] (js "pdf.js-viewer.js") = js "pdf-viewer.js" /\
  extractAssets [(js "pdf.js-viewer.js", js "/static/js/pdf.js-viewer.8d2f.js")]
    [js "pdf.js-viewer"] = [].
Proof. repeat split. Qed.

(** C6. With the manifest that maps regist.js to /static/regist.abc123.js and
    a module list that includes regist, the script list is the single tag
    whose source is static/regist.abc123.js, without the leading slash. *)
Theorem extraChunks_regist (modules : list str) :
  In (js "regist") modules ->
  extraChunks [(js "regist.js", js "/static/regist.abc123.js")] modules =
    [js "<script type=" ++ DQ :: js "text/javascript" ++ DQ :: js " src=" ++ DQ ::
       js "static/regist.abc123.js" ++ DQ :: js "></script>"].
Proof.
  intros Hin. unfold extraChunks, extractAssets. cbn [Object_keys map fst List.filter].
  replace (touched modules (js "regist.js")) with true; [reflexivity|].
  symmetry. apply touched_true. exact Hin.
Qed.

Lemma extraChunks_regist_witness :
  extraChunks [(js "regist.js", js "/static/regist.abc123.js")]
    [js "login"; js "regist"] =
    [js "<script type=" ++ DQ :: js "text/javascript" ++ DQ :: js " src=" ++ DQ ::
       js "static/regist.abc123.js" ++ DQ :: js "></script>"].
Proof.
  apply (extraChunks_regist [js "login"; js "regist"]). right. left. reflexivity.
Defined.

(** ** The title expression *)

Lemma lazy_dots_then_Some close s n :
  lazy_dots_then close s = Some n ->
  exists t b,
    s = t ++ close ++ b /\ n = length t + length close /\
    Forall (fun c => line_terminator c = false) t.
Proof.
  revert n. induction s as [|c s IH]; intros n; simpl.
  - destruct (starts_with close []) eqn:E; [|discriminate].
    intros [= <-]. exists [], []. apply starts_with_inv in E.
    rewrite drop_nil in E. repeat split; [exact E | constructor].
  - destruct (starts_with close (c :: s)) eqn:E.
    + intros [= <-]. exists [], (drop (length close) (c :: s)).
      repeat split; [now apply starts_with_inv | constructor].
    + destruct (line_terminator c) eqn:Ec; [discriminate|].
      destruct (lazy_dots_then close s) as [m|]; [|discriminate].
      intros [= <-]. destruct (IH m eq_refl) as (t & b & -> & -> & Ht).
      exists (c :: t), b. repeat split. now constructor.
Qed.

Lemma lazy_dots_then_here close s :
  starts_with close s = true -> lazy_dots_then close s = Some (length close).
Proof. destruct s; simpl; now intros ->. Qed.

Lemma lazy_dots_then_complete close t b :
  Forall (fun c => line_terminator c = false) t ->
  exists n, lazy_dots_then close (t ++ close ++ b) = Some n.
Proof.
  induction 1 as [|c t Hc Ht IH].
  - eexists. apply lazy_dots_then_here. apply (starts_with_app close b).
  - cbn [app lazy_dots_then]. destruct (starts_with close (c :: t ++ close ++ b)); [eauto|].
    rewrite Hc. destruct IH as [n ->]. simpl. eauto.
Qed.

Lemma re_between_Some open close s n :
  re_between open close s = Some n ->
  exists t b,
    s = open ++ t ++ close ++ b /\ n = length open + (length t + length close) /\
    Forall (fun c => line_terminator c = false) t.
Proof.
  unfold re_between. destruct (starts_with open s) eqn:E; [|discriminate].
  destruct (lazy_dots_then close _) as [m|] eqn:El; [|discriminate].
  intros [= <-]. apply lazy_dots_then_Some in El as (t & b & El & -> & Ht).
  exists t, b. apply starts_with_inv in E. rewrite El in E. auto.
Qed.

Lemma re_between_complete open close t b :
  Forall (fun c => line_terminator c = false) t ->
  exists n, re_between open close (open ++ t ++ close ++ b) = Some n.
Proof.
  intros Ht. unfold re_between. rewrite starts_with_app, drop_app_length.
  destruct (lazy_dots_then_complete close t b Ht) as [n ->]. simpl. eauto.
Qed.

Lemma has_match_true re s :
  re [] = None ->
  has_match re s = true <-> exists a s' k, s = a ++ s' /\ re s' = Some (S k).
Proof.
  intros Hnil. induction s as [|c s IH].
  - split; [discriminate|]. intros (a & s' & k & E & H).
    symmetry in E. apply app_eq_nil in E as [_ E]. subst s'. congruence.
  - cbn [has_match]. split.
    + destruct (re (c :: s)) as [[|k]|] eqn:E.
      2: intros _; exists [], (c :: s), k; auto.
      all: intros H; apply IH in H as (a & s' & k' & -> & H);
        exists (c :: a), s', k'; auto.
    + intros ([|d a] & s' & k & E & H).
      * simpl in E. subst s'. now rewrite H.
      * injection E as -> ->.
        assert (has_match re (a ++ s') = true) as -> by (apply IH; eauto).
        now destruct (re (_ :: _)) as [[|?]|].
Qed.

(** The expression matches somewhere exactly when the text holds a title
    element. *)
Lemma has_match_title s : has_match TITLE_RE s = true <-> title_element s.
Proof.
  rewrite has_match_true by reflexivity. unfold title_element, TITLE_RE. split.
  - intros (a & s' & k & -> & H). apply re_between_Some in H as (t & b & -> & _ & Ht).
    eauto.
  - intros (a & t & b & -> & Ht).
    destruct (re_between_complete TITLE_OPEN TITLE_CLOSE t b Ht) as [n Hn].
    destruct n as [|k]; [|eauto].
    apply re_between_Some in Hn as (t' & b' & _ & Hn & _). discriminate.
Qed.

(** ** Replacing every match *)

Section ReplaceAll.

Variable re : regexp.
Variable repl : str.

(** The code units of a match are passed over. *)
Lemma replace_all_from_skip (done x y : str) :
  replace_all_from re repl done (length x) (x ++ y) =
  replace_all_from re repl (done ++ x) 0 y.
Proof.
  revert done. induction x as [|c x IH]; intros done; cbn [length app].
  - rewrite app_nil_r. now destruct y.
  - cbn [replace_all_from]. rewrite IH. now rewrite <- app_assoc.
Qed.

(** A text in which no match starts is kept. *)
Lemma replace_all_from_prefix (done a s : str) :
  (forall j, j < length a -> re (drop j (a ++ s)) = None) ->
  replace_all_from re repl done 0 (a ++ s) =
  a ++ replace_all_from re repl (done ++ a) 0 s.
Proof.
  revert done. induction a as [|c a IH]; intros done H; cbn [app].
  - now rewrite app_nil_r.
  - cbn [replace_all_from]. pose proof (H 0 ltac:(simpl; lia)) as H0.
    cbn [drop app] in H0. rewrite H0.
    rewrite IH, <- app_assoc; [reflexivity|].
    intros j Hj. apply (H (S j)). simpl. lia.
Qed.

(** A match gives way to its substitution. *)
Lemma replace_all_from_match (done m s : str) :
  m <> [] ->
  re (m ++ s) = Some (length m) ->
  replace_all_from re repl done 0 (m ++ s) =
  GetSubstitution m done s repl ++ replace_all_from re repl (done ++ m) 0 s.
Proof.
  destruct m as [|c m]; [congruence|]. intros _ H. cbn [app length] in *.
  cbn [replace_all_from]. rewrite H.
  change (c :: m ++ s) with ((c :: m) ++ s).
  rewrite <- (length_cons c m), take_app_length, drop_app_length.
  now rewrite replace_all_from_skip, <- app_assoc.
Qed.

End ReplaceAll.

(** ** The steps of the assembler, one marker at a time *)

Lemma not_in_app (x : N) (l1 l2 : str) : ~ In x l1 -> ~ In x l2 -> ~ In x (l1 ++ l2).
Proof. rewrite in_app_iff. tauto. Qed.

Lemma not_in_cons (x y : N) (l : str) : y <> x -> ~ In x l -> ~ In x (y :: l).
Proof. simpl. tauto. Qed.

Ltac plain :=
  repeat first
    [ assumption
    | apply plain_literal; reflexivity
    | apply not_in_app
    | apply not_in_cons; [discriminate|] ].

Lemma root_filled_plain f :
  ~ In DOLLAR (body f) -> ~ In DOLLAR (state f) -> ~ In DOLLAR (root_filled f).
Proof. intros Hb Hs. unfold root_filled. plain. Qed.

Lemma join_plain (parts : list str) :
  Forall (fun part => ~ In DOLLAR part) parts -> ~ In DOLLAR (join parts).
Proof.
  unfold join. induction 1 as [|part parts Hp _ IH]; simpl; [tauto|].
  now apply not_in_app.
Qed.

Section Steps.

Variable f : fragments.
Variables a b : str.

(** The attributes go into the first [<html>]. *)
Lemma html_step_first :
  indexOf HTML_OPEN (a ++ HTML_OPEN ++ b) = Some (length a) ->
  ~ In DOLLAR (html f) ->
  html_step f (a ++ HTML_OPEN ++ b) = a ++ js "<html " ++ html f ++ js ">" ++ b.
Proof.
  intros Hi Hd. unfold html_step. rewrite replace_first; [|exact Hi|plain].
  now rewrite <- !app_assoc.
Qed.

(** The metadata and the styles go immediately before the first [</head>]. *)
Lemma head_step_first :
  indexOf HEAD_CLOSE (a ++ HEAD_CLOSE ++ b) = Some (length a) ->
  ~ In DOLLAR (meta f) ->
  ~ In DOLLAR (styles f) ->
  head_step f (a ++ HEAD_CLOSE ++ b) = a ++ meta f ++ styles f ++ HEAD_CLOSE ++ b.
Proof.
  intros Hi Hm Hs. unfold head_step. rewrite replace_first; [|exact Hi|plain].
  now rewrite <- !app_assoc.
Qed.

(** The body and the state take the place of the first placeholder. *)
Lemma root_step_first :
  indexOf ROOT (a ++ ROOT ++ b) = Some (length a) ->
  ~ In DOLLAR (body f) ->
  ~ In DOLLAR (state f) ->
  root_step f (a ++ ROOT ++ b) = a ++ root_filled f ++ b.
Proof.
  intros Hi Hb Hs. unfold root_step.
  apply replace_first; [exact Hi | now apply root_filled_plain].
Qed.

(** The script tags go immediately before the first [</body>]. *)
Lemma scripts_step_first :
  indexOf BODY_CLOSE (a ++ BODY_CLOSE ++ b) = Some (length a) ->
  Forall (fun tag => ~ In DOLLAR tag) (scripts f) ->
  scripts_step f (a ++ BODY_CLOSE ++ b) = a ++ join (scripts f) ++ BODY_CLOSE ++ b.
Proof.
  intros Hi Hs. unfold scripts_step. rewrite replace_first; [|exact Hi|].
  - now rewrite <- !app_assoc.
  - apply not_in_app; [now apply join_plain | plain].
Qed.

(** The title fragment takes the place of the title element, here the only
    one of the text. *)
Lemma title_step_single (t : str) :
  let element := TITLE_OPEN ++ t ++ TITLE_CLOSE in
  (forall j, j < length a -> TITLE_RE (drop j (a ++ element ++ b)) = None) ->
  TITLE_RE (element ++ b) = Some (length element) ->
  has_match TITLE_RE b = false ->
  ~ In DOLLAR (title f) ->
  title_step f (a ++ element ++ b) = a ++ title f ++ b.
Proof.
  intros element Ha Hm Hb Hd. unfold title_step, replace_all.
  rewrite replace_all_from_prefix by exact Ha.
  rewrite replace_all_from_match; [|discriminate|exact Hm].
  rewrite GetSubstitution_plain by exact Hd.
  now rewrite replace_all_from_no_match.
Qed.

End Steps.

(** The script tags built from a manifest hold no dollar when its paths hold
    none. *)
Lemma script_tag_plain (c : str) : ~ In DOLLAR c -> ~ In DOLLAR (script_tag c).
Proof.
  intros Hc. unfold script_tag. plain.
  destruct c as [|d c]; simpl; [tauto|].
  destruct (N.eqb d SLASH); [|exact Hc]. intros Hin. apply Hc. now right.
Qed.

(** C7, the claim refuted: the sample template is well formed, and assembling
    the assembled document again with the same fragments gives another
    document, in which the head metadata stands twice. *)
Lemma injectHTML_twice_differs :
  well_formed Sample.template = true /\
  occurrences (meta Sample.with_meta) (injectHTML Sample.template Sample.with_meta) = 1 /\
  occurrences (meta Sample.with_meta)
    (injectHTML (injectHTML Sample.template Sample.with_meta) Sample.with_meta) = 2 /\
  injectHTML (injectHTML Sample.template Sample.with_meta) Sample.with_meta
    <> injectHTML Sample.template Sample.with_meta.
Proof.
  repeat split. intros H. apply (f_equal length) in H.
  vm_compute in H. discriminate.
Qed.

(** C7, amended.  Assembling an assembled document again gives the same
    document when the metadata, the styles and the script list are empty
    and the assembled document holds no [<html>], no title element and no
    placeholder any more. *)
Theorem injectHTML_twice (data : str) (f : fragments) :
  meta f = [] ->
  styles f = [] ->
  scripts f = [] ->
  indexOf HTML_OPEN (injectHTML data f) = None ->
  has_match TITLE_RE (injectHTML data f) = false ->
  indexOf ROOT (injectHTML data f) = None ->
  injectHTML (injectHTML data f) f = injectHTML data f.
Proof.
  intros Hm Hs Hj Hh Ht Hr. generalize dependent (injectHTML data f). intros doc Hh Ht Hr.
  unfold injectHTML, html_step, title_step, head_step, root_step, scripts_step.
  rewrite Hm, Hs, Hj. cbn [join concat app].
  rewrite (replace_absent _ _ _ Hh), (replace_all_no_match _ _ _ Ht).
  change (js "</head>") with HEAD_CLOSE. change (js "</body>") with BODY_CLOSE.
  rewrite (replace_self HEAD_CLOSE) by plain.
  rewrite (replace_absent _ _ _ Hr).
  apply replace_self. plain.
Qed.

Lemma injectHTML_twice_witness :
  injectHTML (injectHTML Sample.template Sample.bare) Sample.bare
    = injectHTML Sample.template Sample.bare.
Proof.
  apply (injectHTML_twice Sample.template Sample.bare); reflexivity.
Defined.

(** An empty body markup leaves the placeholder in the assembled document,
    and a second assembly then inserts the state script once more. *)
Example injectHTML_twice_empty_body :
  indexOf ROOT (injectHTML Sample.template Sample.empty_body) = Some 92 /\
  occurrences (js "<script>") (injectHTML Sample.template Sample.empty_body) = 1 /\
  occurrences (js "<script>")
    (injectHTML (injectHTML Sample.template Sample.empty_body) Sample.empty_body) = 2.
Proof. repeat split. Qed.

(** C8. A body markup with two dollars in a row: the assembled document shows
    one dollar where the markup has two, so that the markup itself is not in
    the document. *)
Theorem injectHTML_body_dollars :
  body Sample.priced = js "<p>US$$ 5</p>" /\
  injectHTML Sample.template Sample.priced =
    js "<!doctype html><html ><head><title>Shop</title></head><body><div id="
      ++ DQ :: js "root" ++ DQ :: js "><p>US$ 5</p></div>"
      ++ js "<script>window.__PRELOADED_STATE__ = {}</script></body></html>" /\
  indexOf (body Sample.priced) (injectHTML Sample.template Sample.priced) = None.
Proof. repeat split. Qed.

(** C9, the claim refuted: a template without the placeholder, assembled with
    head metadata that hold the placeholder; the document holds the body
    markup and the state script. *)
Lemma injectHTML_placeholder_from_meta :
  ~ occurs ROOT (js "</head>") /\
  injectHTML (js "</head>") Sample.meta_with_root =
    root_filled Sample.meta_with_root ++ js "</head>" /\
  occurs (body Sample.meta_with_root) (injectHTML (js "</head>") Sample.meta_with_root) /\
  occurs (js "<script>window.__PRELOADED_STATE__ = {}</script>")
    (injectHTML (js "</head>") Sample.meta_with_root).
Proof.
  split; [now apply indexOf_None_iff|]. split; [reflexivity|]. split.
  - exists (js "<div id=" ++ DQ :: js "root" ++ DQ :: js ">"),
      (js "</div><script>window.__PRELOADED_STATE__ = {}</script></head>").
    reflexivity.
  - exists (js "<div id=" ++ DQ :: js "root" ++ DQ :: js "><form>regist</form></div>"),
      (js "</head>").
    reflexivity.
Qed.

(** C9, amended.  The assembler is a total function of its strings.  A step
    leaves the text as it is when the text that reaches it lacks the step's
    marker: [<html>], a title element, [</head>], the placeholder, [</body>].
    When the text that reaches the fourth step lacks the placeholder, the
    document is what the four other steps make of the template, whatever the
    body markup and the state. *)
Theorem injectHTML_missing_marker (data : str) (f : fragments) :
  (exists document, injectHTML data f = document) /\
  (indexOf HTML_OPEN data = None -> html_step f data = data) /\
  (has_match TITLE_RE data = false -> title_step f data = data) /\
  (indexOf HEAD_CLOSE data = None -> head_step f data = data) /\
  (indexOf ROOT data = None -> root_step f data = data) /\
  (indexOf BODY_CLOSE data = None -> scripts_step f data = data) /\
  (indexOf ROOT (head_step f (title_step f (html_step f data))) = None ->
   injectHTML data f = scripts_step f (head_step f (title_step f (html_step f data))) /\
   forall body' state',
     injectHTML data
       {| html := html f; title := title f; meta := meta f; body := body';
          scripts := scripts f; styles := styles f; state := state' |}
     = injectHTML data f).
Proof.
  split; [eauto|].
  repeat split; try (intros H; now apply replace_absent).
  - apply replace_all_no_match.
  - unfold injectHTML, root_step. now rewrite (replace_absent _ _ _ H).
  - intros body' state'. unfold injectHTML, root_step.
    change (html_step _ data) with (html_step f data).
    change (title_step _ (html_step f data)) with (title_step f (html_step f data)).
    change (head_step _ (title_step f (html_step f data)))
      with (head_step f (title_step f (html_step f data))).
    now rewrite !(replace_absent _ _ _ H).
Qed.

Lemma injectHTML_missing_marker_witness :
  injectHTML (js "<html><head></head><body><div id=root></div></body></html>") Sample.with_meta
  = js "<html lang=zh><head><meta charset=utf-8></head><body><div id=root></div></body></html>".
Proof.
  destruct (injectHTML_missing_marker
              (js "<html><head></head><body><div id=root></div></body></html>")
              Sample.with_meta) as (_ & _ & _ & _ & _ & _ & H).
  destruct (H eq_refl) as [-> _]. reflexivity.
Defined.

(** ** The handler on the sample request *)

Example handlSSR_sample_document :
  handlSSR (Sample.world (Ok Sample.template) None) Sample.request =
    {| returned := Text Sample.document; console := [] |} /\
  Sample.document =
    js "<!doctype html><html lang=zh><head>"
      ++ js "<title data-react-helmet=true>Regist</title>"
      ++ js "<meta charset=utf-8><style>a{}</style></head><body>"
      ++ js "<div id=" ++ DQ :: js "root" ++ DQ :: js "><form>regist</form></div>"
      ++ js "<script>window.__PRELOADED_STATE__ = {" ++ DQ :: js "note" ++ DQ
      :: js ":" ++ DQ :: js "a" ++ U003C ++ js "b" ++ DQ :: js "}</script>"
      ++ script_tag (js "/static/regist.abc123.js")
      ++ js "</body></html>".
Proof. split; reflexivity. Qed.

(** * Further properties *)

(** ** The assembler on whole templates *)

Lemma replace_all_from_skip_any (re : regexp) (repl done : str) (k : nat) (s : str) :
  replace_all_from re repl done k s =
  replace_all_from re repl (done ++ take k s) 0 (drop k s).
Proof.
  revert done k. induction s as [|c s IH]; intros done k.
  - now rewrite take_nil, drop_nil.
  - destruct k as [|k]; [now rewrite take_0, drop_0, app_nil_r|].
    cbn [replace_all_from take drop]. rewrite IH. now rewrite <- app_assoc.
Qed.

(** Up to its first match a text is kept, the match gives way to its
    substitution, and the replacing goes on after the match. *)
Lemma replace_all_from_first_match (re : regexp) (repl done s : str) (i n : nat) :
  first_match re s = Some (i, n) ->
  replace_all_from re repl done 0 s =
    take i s
      ++ GetSubstitution (take n (drop i s)) (done ++ take i s) (drop n (drop i s)) repl
      ++ replace_all_from re repl (done ++ take i s ++ take n (drop i s)) 0
           (drop n (drop i s)).
Proof.
  revert done i. induction s as [|c s IH]; intros done i; [discriminate|].
  cbn [first_match replace_all_from].
  destruct (re (c :: s)) as [[|k]|] eqn:E.
  2: { intros [= <- <-]. rewrite take_0, drop_0, app_nil_r. cbn [app].
       f_equal. rewrite replace_all_from_skip_any. cbn [take drop].
       now rewrite <- app_assoc. }
  all: destruct (first_match re s) as [[i' n']|] eqn:F; [|discriminate];
    intros [= <- <-]; rewrite (IH (done ++ [c]) i' eq_refl);
    cbn [take drop app]; now rewrite <- !app_assoc.
Qed.

(** X1. A text that holds none of the five markers passes through the
    assembler unchanged, whatever the fragments. *)
Theorem injectHTML_no_marker (data : str) (f : fragments) :
  indexOf HTML_OPEN data = None ->
  has_match TITLE_RE data = false ->
  indexOf HEAD_CLOSE data = None ->
  indexOf ROOT data = None ->
  indexOf BODY_CLOSE data = None ->
  injectHTML data f = data.
Proof.
  intros Hh Ht Hc Hr Hb.
  unfold injectHTML, html_step, title_step, head_step, root_step, scripts_step.
  rewrite (replace_absent _ _ _ Hh), (replace_all_no_match _ _ _ Ht).
  now rewrite (replace_absent _ _ _ Hc), (replace_absent _ _ _ Hr), (replace_absent _ _ _ Hb).
Qed.

Lemma injectHTML_no_marker_witness :
  injectHTML (js "<p>closed for maintenance</p>") Sample.with_meta
  = js "<p>closed for maintenance</p>".
Proof.
  apply (injectHTML_no_marker (js "<p>closed for maintenance</p>") Sample.with_meta);
    reflexivity.
Defined.

(** X2. On a template whose markers each step finds where the template was
    cut, and with fragments that hold no dollar, the assembled document is
    the template with the attributes inside the html tag, the title fragment
    for the title element, the metadata and the styles immediately before
    [</head>], the filled container for the placeholder and the script tags
    immediately before [</body>]; the rest of the template is kept. *)
Theorem injectHTML_layout (p : parts) (f : fragments) :
  markers_in_place p f ->
  plain_fragments f ->
  injectHTML (template_of p) f = document_of p f.
Proof.
  intros [Hh Ht Ha Hc Hr Hb] [Ph Pt Pm Ps Pb Pst Psc].
  unfold injectHTML.
  assert (html_step f (template_of p)
          = upto_title p f ++ (TITLE_OPEN ++ title_text p ++ TITLE_CLOSE) ++ from_title p)
    as ->.
  { unfold html_step, template_of. rewrite replace_first; [|exact Hh|].
    - unfold upto_title, from_title. now rewrite <- !app_assoc.
    - apply not_in_app; [now apply plain_literal|].
      apply not_in_app; [exact Ph | now apply plain_literal]. }
  assert (title_step f
            (upto_title p f ++ (TITLE_OPEN ++ title_text p ++ TITLE_CLOSE) ++ from_title p)
          = upto_head p f ++ HEAD_CLOSE ++ from_head p) as ->.
  { unfold title_step, replace_all.
    rewrite (replace_all_from_first_match _ _ _ _ _ _ Ht).
    rewrite take_app_length, drop_app_length, take_app_length, drop_app_length.
    rewrite GetSubstitution_plain by exact Pt.
    rewrite replace_all_from_no_match by exact Ha.
    unfold upto_head, from_title, from_head. now rewrite <- !app_assoc. }
  assert (head_step f (upto_head p f ++ HEAD_CLOSE ++ from_head p)
          = upto_root p f ++ ROOT ++ from_root p) as ->.
  { unfold head_step. rewrite replace_first; [|exact Hc|].
    - unfold upto_root, from_head, from_root. now rewrite <- !app_assoc.
    - apply not_in_app; [exact Pm|].
      apply not_in_app; [exact Ps | now apply plain_literal]. }
  assert (root_step f (upto_root p f ++ ROOT ++ from_root p)
          = upto_body p f ++ BODY_CLOSE ++ after_body p) as ->.
  { unfold root_step. rewrite replace_first; [|exact Hr|].
    - unfold upto_body, from_root. now rewrite <- !app_assoc.
    - now apply root_filled_plain. }
  unfold scripts_step. rewrite replace_first; [|exact Hb|].
  - unfold document_of, upto_body, upto_root, upto_head, upto_title.
    now rewrite <- !app_assoc.
  - apply not_in_app; [now apply join_plain | now apply plain_literal].
Qed.

Lemma injectHTML_layout_witness :
  injectHTML (template_of Cases.sample_parts) Sample.with_meta
  = document_of Cases.sample_parts Sample.with_meta.
Proof.
  apply (injectHTML_layout Cases.sample_parts Sample.with_meta).
  - split; reflexivity.
  - split; try (apply plain_literal; reflexivity). constructor.
Defined.

(** ** The escaping of the state, further *)

Lemma escape_lt_app (s1 s2 : str) : escape_lt (s1 ++ s2) = escape_lt s1 ++ escape_lt s2.
Proof. rewrite !escape_lt_flat_map. apply flat_map_app. Qed.

Lemma escape_lt_clean (s : str) : ~ In LT s -> escape_lt s = s.
Proof.
  rewrite escape_lt_flat_map. induction s as [|c s IH]; intros H; [reflexivity|].
  cbn [flat_map]. unfold escape_char at 1.
  destruct (N.eqb_spec c LT) as [E|_]; [exfalso; apply H; now left|].
  cbn [app]. f_equal. apply IH. intros Hin. apply H. now right.
Qed.

(** X3. The escaping leaves a text as it is exactly when the text holds no
    [<]. *)
Theorem escape_lt_unchanged_iff (s : str) : escape_lt s = s <-> ~ In LT s.
Proof.
  split; [|apply escape_lt_clean].
  intros E. rewrite <- E. apply escape_lt_no_lt.
Qed.

(** X4. Escaping twice is escaping once. *)
Theorem escape_lt_idempotent (s : str) : escape_lt (escape_lt s) = escape_lt s.
Proof. apply escape_lt_clean, escape_lt_no_lt. Qed.

(** X5. The escaped text is longer by five code units for each [<], and the
    escaping goes through a concatenation. *)
Theorem escape_lt_length (s1 s2 : str) :
  escape_lt (s1 ++ s2) = escape_lt s1 ++ escape_lt s2 /\
  length (escape_lt s1) = length s1 + 5 * count_occ N.eq_dec s1 LT.
Proof.
  split; [apply escape_lt_app|].
  rewrite escape_lt_flat_map. induction s1 as [|c s IH]; [reflexivity|].
  cbn [flat_map count_occ]. rewrite length_app, IH. unfold escape_char.
  destruct (N.eq_dec c LT) as [->|Hne].
  - cbn. lia.
  - destruct (N.eqb_spec c LT) as [E|_]; [contradiction|]. cbn. lia.
Qed.

(** ** The asset selector, further *)

Lemma touched_ext (chunks chunks' : list str) (asset : str) :
  (forall x, In x chunks <-> In x chunks') ->
  touched chunks asset = touched chunks' asset.
Proof.
  intros H. destruct (touched chunks asset) eqn:E, (touched chunks' asset) eqn:E';
    try reflexivity.
  - apply touched_true, H, touched_true in E. congruence.
  - apply touched_true, H, touched_true in E'. congruence.
Qed.

Lemma get_In (o : list (str * str)) (k v : str) : get o k = Some v -> In (k, v) o.
Proof.
  induction o as [|[k' v'] o IH]; [discriminate|]. cbn [get].
  case_bool_decide as E; [intros [= <-]; subst; now left | right; auto].
Qed.

Lemma extractAssets_from_manifest (assets : list (str * str)) (chunks : list str)
    (path : str) :
  In path (extractAssets assets chunks) -> exists key, In (key, path) assets.
Proof.
  unfold extractAssets. intros H. apply list_elem_of_In, list_elem_of_omap in H
    as (key & _ & H).
  exists key. now apply get_In.
Qed.

(** X6. On a manifest, whose keys are distinct, the selection is the list of
    the manifest's paths in the manifest's order, without those whose key,
    once its first [.js] is taken out, is no touched module. *)
Theorem extractAssets_selection (assets : list (str * str)) (chunks : list str) :
  NoDup (Object_keys assets) ->
  extractAssets assets chunks =
    map snd (List.filter (fun kv => touched chunks (fst kv)) assets) /\
  forall path,
    In path (extractAssets assets chunks) <->
    exists key, In (key, path) assets /\ In (replace (js ".js") [] key) chunks.
Proof.
  intros Hnd. split; [now apply extractAssets_filter|].
  intros path. now apply extractAssets_In.
Qed.

Lemma extractAssets_selection_witness :
  extractAssets [(js "login.js", js "/static/login.js"); (js "main.css", js "/static/main.css");
                 (js "regist.js", js "/static/regist.js")]
    [js "regist"; js "login"]
  = map snd (List.filter (fun kv => touched [js "regist"; js "login"] (fst kv))
      [(js "login.js", js "/static/login.js"); (js "main.css", js "/static/main.css");
       (js "regist.js", js "/static/regist.js")]) /\
  forall path,
    In path (extractAssets
               [(js "login.js", js "/static/login.js"); (js "main.css", js "/static/main.css");
                (js "regist.js", js "/static/regist.js")]
               [js "regist"; js "login"]) <->
    exists key,
      In (key, path) [(js "login.js", js "/static/login.js");
                      (js "main.css", js "/static/main.css");
                      (js "regist.js", js "/static/regist.js")] /\
      In (replace (js ".js") [] key) [js "regist"; js "login"].
Proof.
  apply (extractAssets_selection
           [(js "login.js", js "/static/login.js"); (js "main.css", js "/static/main.css");
            (js "regist.js", js "/static/regist.js")]
           [js "regist"; js "login"]).
  cbn. repeat constructor; rewrite ?list_elem_of_In; cbn; intuition discriminate.
Defined.

(** X7. The selection depends on which modules were touched, not on how
    often or in which order they were reported. *)
Theorem extractAssets_modules_set (assets : list (str * str)) (chunks chunks' : list str) :
  (forall x, In x chunks <-> In x chunks') ->
  extractAssets assets chunks = extractAssets assets chunks'.
Proof.
  intros H. unfold extractAssets. f_equal.
  apply filter_ext. intros asset. now apply touched_ext.
Qed.

Lemma extractAssets_modules_set_witness :
  extractAssets [(js "regist.js", js "/static/regist.js")] [js "regist"; js "login"; js "regist"]
  = extractAssets [(js "regist.js", js "/static/regist.js")] [js "login"; js "regist"].
Proof.
  apply (extractAssets_modules_set [(js "regist.js", js "/static/regist.js")]
           [js "regist"; js "login"; js "regist"] [js "login"; js "regist"]).
  intros x. cbn. tauto.
Defined.

(** X8. Without a touched module there is no script tag, whatever the
    manifest, and an empty manifest gives none, whatever the modules. *)
Theorem extraChunks_nothing (manifest : list (str * str)) (modules : list str) :
  extraChunks manifest [] = [] /\ extraChunks [] modules = [].
Proof.
  split; [|reflexivity]. unfold extraChunks, extractAssets.
  replace (List.filter (touched []) (Object_keys manifest)) with (@nil (list N));
    [reflexivity|].
  induction (Object_keys manifest) as [|k l IH]; [reflexivity|].
  cbn [List.filter]. unfold touched at 1. cbn [Array_indexOf]. exact IH.
Qed.

(** X9. The script tags of a manifest whose paths hold no dollar go into the
    text as they are, immediately before the first [</body>]. *)
Theorem scripts_step_extraChunks (manifest : list (str * str)) (modules : list str)
    (f : fragments) (a b : str) :
  Forall (fun kv => plain (snd kv)) manifest ->
  scripts f = extraChunks manifest modules ->
  first_at BODY_CLOSE a (a ++ BODY_CLOSE ++ b) ->
  scripts_step f (a ++ BODY_CLOSE ++ b)
  = a ++ join (extraChunks manifest modules) ++ BODY_CLOSE ++ b.
Proof.
  intros Hp Hs Hb. rewrite <- Hs. apply scripts_step_first; [exact Hb|].
  rewrite Hs. unfold extraChunks. apply Forall_forall. intros tag Hin.
  apply list_elem_of_In, in_map_iff in Hin as (path & <- & Hin).
  apply script_tag_plain. apply extractAssets_from_manifest in Hin as (key & Hin).
  rewrite Forall_forall in Hp. apply (Hp (key, path)). now apply list_elem_of_In.
Qed.

Lemma scripts_step_extraChunks_witness :
  scripts_step
    {| html := []; title := []; meta := []; body := [];
       scripts := extraChunks [(js "regist.js", js "/static/regist.abc123.js")] [js "regist"];
       styles := []; state := [] |}
    (js "<body>" ++ BODY_CLOSE ++ js "</html>")
  = js "<body>"
      ++ join (extraChunks [(js "regist.js", js "/static/regist.abc123.js")] [js "regist"])
      ++ BODY_CLOSE ++ js "</html>".
Proof.
  apply (scripts_step_extraChunks
           [(js "regist.js", js "/static/regist.abc123.js")] [js "regist"]
           {| html := []; title := []; meta := []; body := [];
              scripts := extraChunks [(js "regist.js", js "/static/regist.abc123.js")]
                           [js "regist"];
              styles := []; state := [] |}
           (js "<body>") (js "</html>")).
  - constructor; [|constructor]. apply plain_literal. reflexivity.
  - reflexivity.
  - reflexivity.
Defined.

(** ** The handler, further *)



(** X11. The handler returns a document exactly when the template was read,
    the store created, the page rendered without a redirect target, and the
    head data, the style tags and the JSON text of the state obtained; the
    document is then the assembly of the template with these fragments and
    the script tags of the touched modules. *)
Theorem handlSSR_document_iff (w : World) (request : Request.t) (document : str) :
  returned (handlSSR w request) = Text document <->
  exists htmlData store r hl styl json,
    readFileSync w = Ok htmlData /\
    createStore w (Request.url request) = Ok store /\
    frontloadServerRender w (Request.url request) (setUser request store) = Ok r /\
    no_redirect r /\
    helmet r = Ok hl /\
    styleTags r = Ok styl /\
    JSON_stringify w (rendered_state r) = Some json /\
    document =
      injectHTML htmlData
        (fragments_of hl r (extraChunks (manifest w) (modules r)) (escape_lt json) styl).
Proof.
  split; [apply handlSSR_document|].
  intros (htmlData & store & r & hl & styl & json & E1 & E2 & E3 & N & E5 & E6 & E7 & ->).
  unfold handlSSR, try_block, mbind, result_bind, mret, result_ret, serialize.
  rewrite E1, E2, E3. destruct N as [-> | ->]; now rewrite E5, E6, E7.
Qed.

(** X12. An empty string as the router's target is no redirect: when the
    other steps succeed the handler returns the document. *)
Theorem handlSSR_empty_target (w : World) (request : Request.t)
    (htmlData : str) (store : Store) (r : Rendered) (hl : Helmet) (styl json : str) :
  readFileSync w = Ok htmlData ->
  createStore w (Request.url request) = Ok store ->
  frontloadServerRender w (Request.url request) (setUser request store) = Ok r ->
  context_url r = Some [] ->
  helmet r = Ok hl ->
  styleTags r = Ok styl ->
  JSON_stringify w (rendered_state r) = Some json ->
  handlSSR w request =
    {| returned :=
         Text (injectHTML htmlData
                 (fragments_of hl r (extraChunks (manifest w) (modules r))
                    (escape_lt json) styl));
       console := [] |}.
Proof.
  intros E1 E2 E3 E4 E5 E6 E7.
  unfold handlSSR, try_block, mbind, result_bind, mret, result_ret, serialize.
  now rewrite E1, E2, E3, E4, E5, E6, E7.
Qed.

Lemma handlSSR_empty_target_witness :
  handlSSR (Sample.world (Ok Sample.template) (Some [])) Sample.request =
    {| returned := Text Sample.document; console := [] |}.
Proof.
  apply (handlSSR_empty_target (Sample.world (Ok Sample.template) (Some [])) Sample.request
           Sample.template Sample.store
           (Sample.rendered (Some []) (getState (setUser Sample.request Sample.store)))
           {| htmlAttributes := js "lang=zh";
              helmet_title := js "<title data-react-helmet=true>Regist</title>";
              helmet_meta := js "<meta charset=utf-8>" |}
           (js "<style>a{}</style>") Sample.json); reflexivity.
Defined.

(** X13. Of a request the handler uses the url and the cookie [mywebsite]
    and nothing else: two requests that agree on both have the same
    outcome. *)
Theorem handlSSR_request (w : World) (request request' : Request.t) :
  Request.url request = Request.url request' ->
  Request.state request !! MYWEBSITE = Request.state request' !! MYWEBSITE ->
  handlSSR w request = handlSSR w request'.
Proof.
  intros Hu Hc. unfold handlSSR, try_block, setUser. now rewrite Hu, Hc.
Qed.

Lemma handlSSR_request_witness :
  handlSSR (Sample.world (Ok Sample.template) None) Sample.request
  = handlSSR (Sample.world (Ok Sample.template) None) Cases.other_cookies.
Proof.
  apply (handlSSR_request (Sample.world (Ok Sample.template) None)
           Sample.request Cases.other_cookies); reflexivity.
Defined.

(** X16. The title expression matches somewhere in a text exactly when the
    text holds the opening tag without attributes, then code units none of
    which ends a line, then the closing tag; a text without such an element
    comes out of the title step unchanged. *)
Theorem title_step_element (data : str) (f : fragments) :
  (has_match TITLE_RE data = true <-> title_element data) /\
  (~ title_element data -> title_step f data = data).
Proof.
  split; [apply has_match_title|]. intros H. apply replace_all_no_match.
  destruct (has_match TITLE_RE data) eqn:E; [|reflexivity].
  exfalso. now apply H, has_match_title.
Qed.

Lemma title_step_element_witness :
  title_step Sample.with_meta (js "<head><title lang=zh>yuntun</title></head>")
  = js "<head><title lang=zh>yuntun</title></head>".
Proof.
  apply (title_step_element (js "<head><title lang=zh>yuntun</title></head>")
           Sample.with_meta).
  intros H. apply has_match_title in H. discriminate.
Defined.

(** ** The countdown of the registration page *)

Module RegistFacts.
Import Regist.

Local Open Scope Z_scope.

Lemma useEffect_Some (n c : Z) : useEffect n = Some c -> n = c /\ n <> 0.
Proof.
  unfold useEffect. destruct (Z.eqb_spec n 0); [discriminate|].
  now intros [= <-].
Qed.

Lemma step_settled (s s' : t) (e : event) :
  settled s -> step s e = Some s' -> settled s'.
Proof.
  intros [Hr Ht]. destruct e; cbn [step].
  - unfold click, disabled. destruct (Z.eqb_spec (countdown s) 0) as [E|]; [|discriminate].
    cbn [negb]. intros [= <-]. unfold setCount, settled. rewrite E. cbn.
    split; [lia | reflexivity].
  - unfold fire. rewrite Ht. destruct (useEffect (countdown s)) as [c|] eqn:Ec; [|discriminate].
    apply useEffect_Some in Ec as [<- Hne]. intros [= <-]. unfold setCount. cbn [countdown].
    destruct (Z.eqb_spec (countdown s - 1) (countdown s)); [lia|].
    unfold settled. cbn. split; [lia | reflexivity].
Qed.

Lemma run_settled (events : list event) (s s' : t) :
  settled s -> run s events = Some s' -> settled s'.
Proof.
  revert s. induction events as [|e events IH]; intros s Hs; cbn [run].
  - now intros [= <-].
  - destruct (step s e) as [s1|] eqn:E; [|discriminate].
    apply IH. now apply (step_settled s s1 e).
Qed.

Lemma run_app (s : t) (l1 l2 : list event) :
  run s (l1 ++ l2) = match run s l1 with Some s' => run s' l2 | None => None end.
Proof.
  revert s. induction l1 as [|e l1 IH]; intros s; [reflexivity|].
  cbn [app run]. destruct (step s e); [apply IH | reflexivity].
Qed.

Lemma run_fires (n : Z) (k : nat) :
  Z.of_nat k <= n ->
  run {| countdown := n; timer := useEffect n |} (repeat Fire k)
  = Some {| countdown := n - Z.of_nat k; timer := useEffect (n - Z.of_nat k) |}.
Proof.
  revert n. induction k as [|k IH]; intros n Hk.
  - cbn [repeat run]. now rewrite Z.sub_0_r.
  - cbn [repeat run step]. unfold fire. cbn [timer]. unfold useEffect at 1.
    destruct (Z.eqb_spec n 0); [lia|]. unfold setCount. cbn [countdown].
    destruct (Z.eqb_spec (n - 1) n); [lia|].
    rewrite IH by lia. now replace (n - Z.of_nat (S k)) with (n - 1 - Z.of_nat k) by lia.
Qed.

(** X14. In every state the mounted component can reach, the countdown lies between
    0 and 60, and a timer is pending exactly when the countdown is not 0; the
    timer then holds the countdown's value. *)
Theorem countdown_bounds (s : t) :
  reachable s ->
  0 <= countdown s <= 60 /\
  timer s = (if Z.eqb (countdown s) 0 then None else Some (countdown s)).
Proof.
  intros [events H]. apply (run_settled events mount s); [|exact H].
  unfold settled. cbn. split; [lia | reflexivity].
Qed.

Lemma countdown_bounds_witness :
  0 <= 58 <= 60 /\
  Some 58 = (if Z.eqb 58 0 then None else Some 58).
Proof.
  apply (countdown_bounds {| countdown := 58; timer := Some 58 |}).
  exists [Click; Fire; Fire]. reflexivity.
Defined.

(** X15. After a click on the idle button the countdown stands at 60; each
    firing of the timer takes one off; as long as fewer than 60 firings have
    happened the button takes no click; after the sixtieth the countdown is
    0, no timer is pending and the timer cannot fire again. *)
Theorem countdown_cooldown (k : nat) :
  (k <= 60)%nat ->
  run mount (Click :: repeat Fire k)
  = Some {| countdown := 60 - Z.of_nat k; timer := useEffect (60 - Z.of_nat k) |} /\
  ((k < 60)%nat -> run mount (Click :: repeat Fire k ++ [Click]) = None) /\
  run mount (Click :: repeat Fire 60 ++ [Fire]) = None.
Proof.
  intros Hk.
  assert (forall j, (j <= 60)%nat ->
          run mount (Click :: repeat Fire j)
          = Some {| countdown := 60 - Z.of_nat j; timer := useEffect (60 - Z.of_nat j) |})
    as Hrun.
  { intros j Hj. cbn [run step]. unfold click, mount, disabled, setCount. cbn.
    apply (run_fires 60 j). lia. }
  split; [now apply Hrun|]. split.
  - intros Hlt. change (Click :: repeat Fire k ++ [Click])
      with ((Click :: repeat Fire k) ++ [Click]).
    rewrite run_app, Hrun by exact Hk. cbn [run step]. unfold click, disabled. cbn [countdown].
    destruct (Z.eqb_spec (60 - Z.of_nat k) 0); [lia | reflexivity].
  - change (Click :: repeat Fire 60 ++ [Fire]) with ((Click :: repeat Fire 60) ++ [Fire]).
    rewrite run_app, Hrun by lia. reflexivity.
Qed.

Lemma countdown_cooldown_witness :
  run mount (Click :: repeat Fire 2)
  = Some {| countdown := 60 - Z.of_nat 2; timer := useEffect (60 - Z.of_nat 2) |} /\
  ((2 < 60)%nat -> run mount (Click :: repeat Fire 2 ++ [Click]) = None) /\
  run mount (Click :: repeat Fire 60 ++ [Fire]) = None.
Proof.
  apply (countdown_cooldown 2). lia.
Defined.

End RegistFacts.
